(** * Tournamention: current-tournament selection and the profile command

  A shallow embedding of [src/backend/schemas/guildsettings.ts] (the
  [GuildSettings] schema class) and of the profile slash command that is
  concatenated to it (solver, validator and description map), with the
  properties the specification states about them.

  JavaScript values are modelled as the code uses them: a call either
  completes normally or throws, a promise is either fulfilled or rejected,
  [null]/[undefined] is [None]. Promises settle in turns of the event loop,
  and a rejection that no handler awaits ends the process. *)

From Stdlib Require Import ZArith List String Ascii Bool Lia.
From Stdlib Require Import DecimalString.
Import ListNotations.

Local Open Scope string_scope.
Local Open Scope Z_scope.

(** ** JavaScript completions, promises and arrays *)

Module Js.

(** The error values the code distinguishes: [OptionValidationError] is the
    only class tested with [instanceof]; [TypeError] is what the runtime
    itself raises; everything else is [OtherError]. *)
Inductive Error : Type :=
| TypeError (message : string)
| OptionValidationError (constraint field value message : string)
| OtherError (message : string).

(** The completion of evaluating an expression or a function body. *)
Inductive completion (A : Type) : Type :=
| Normal (a : A)
| Thrown (e : Error).
Arguments Normal {A} a.
Arguments Thrown {A} e.

(** A promise, by the way it settles: every promise a collaborator returns
    is taken to settle, fulfilled or rejected. *)
Inductive Promise (A : Type) : Type :=
| Fulfilled (a : A)
| Rejected (e : Error).
Arguments Fulfilled {A} a.
Arguments Rejected {A} e.

(** [ToBoolean] on a value of type [string | undefined]. *)
Definition truthy (s : option string) : bool :=
  match s with
  | None => false
  | Some s => negb (s =? "")%string
  end.

(** [Array.prototype.filter]. *)
Definition Array_filter {A : Type} (f : A -> bool) (arr : list A) : list A :=
  filter f arr.

(** [Array.prototype.reduce] called without an initial value: the first
    element seeds the accumulator and the callback runs on the others from
    left to right; on an empty array the runtime throws a [TypeError]. *)
Definition Array_reduce {A : Type} (callback : A -> A -> A) (arr : list A)
  : completion A :=
  match arr with
  | [] => Thrown (TypeError "Reduce of empty array with no initial value")
  | first :: rest => Normal (fold_left callback rest first)
  end.

End Js.
Import Js.

(** ** The [GuildSettings] schema and its tournament selection *)

Module Schema.

(** A BSON [ObjectId] is twelve bytes, read here as one 96-bit big-endian
    number; its four leading bytes are the creation time in seconds. *)
Definition ObjectId : Type := Z.

(** [_id.getTimestamp().getTime()]: milliseconds since the epoch. *)
Definition getTimestamp_getTime (_id : ObjectId) : Z :=
  Z.shiftr _id 64 * 1000.

(** The fields of [Tournament] that the selection reads. *)
Record Tournament : Type := {
  _id : ObjectId;
  name : option string;
  guildID : string;
  active : bool
}.

(** A hydrated document; [toObject] gives its plain record. *)
Record TournamentDocument : Type := { toObject : Tournament }.

Record GuildSettings : Type := {
  settings_id : ObjectId;
  settings_guildID : string
}.

(** [TournamentModel.find({ guildID })] over the collection, which is the
    list of its documents in the order the store returns them. *)
Definition TournamentModel_find (collection : list TournamentDocument)
    (guild : string) : list TournamentDocument :=
  filter (fun t => (guildID (toObject t) =? guild)%string) collection.

(** The condition of the conditional expression in the reducer. *)
Definition keepsPrev (prev curr : TournamentDocument) : bool :=
  let prevTournament := toObject prev in
  let currTournament := toObject curr in
  negb (truthy (name prevTournament))
  && (getTimestamp_getTime (_id prevTournament)
      >? getTimestamp_getTime (_id currTournament)).

(** The callback given to [reduce]. *)
Definition reducer (prev curr : TournamentDocument) : TournamentDocument :=
  if keepsPrev prev curr then prev else curr.

(** [GuildSettings.getCurrentTournament]. A document is an object, hence
    truthy, so the final conditional always takes its first branch when
    the reduction has produced a value. *)
Definition getCurrentTournament (collection : list TournamentDocument)
    (this : GuildSettings) : completion (option TournamentDocument) :=
  let guildTournaments := TournamentModel_find collection (settings_guildID this) in
  match
    Array_reduce reducer
      (Array_filter (fun t => active (toObject t)) guildTournaments)
  with
  | Thrown e => Thrown e
  | Normal activeTournament => Normal (Some activeTournament)
  end.

(** The active records of a guild, in store order. *)
Definition activeTournaments (collection : list TournamentDocument)
    (this : GuildSettings) : list TournamentDocument :=
  Array_filter (fun t => active (toObject t))
    (TournamentModel_find collection (settings_guildID this)).

(** *** The rule as the specification words it *)

Definition creationTime (t : TournamentDocument) : Z :=
  getTimestamp_getTime (_id (toObject t)).

Definition unnamed (t : TournamentDocument) : Prop :=
  name (toObject t) = None \/ name (toObject t) = Some "".

Definition named (t : TournamentDocument) : Prop :=
  exists s, name (toObject t) = Some s /\ s <> "".

(** "If prev has no name and prev's timestamp is newer than curr's, keep
    prev, otherwise take curr." *)
Definition spec_one_sided_rule (prev curr : TournamentDocument)
  : TournamentDocument :=
  match name (toObject prev) with
  | Some (String _ _) => curr
  | _ => if creationTime curr <? creationTime prev then prev else curr
  end.

(** Pairwise reduction from left to right, the running winner against the
    next record. *)
Fixpoint spec_pairwise (winner : TournamentDocument)
    (others : list TournamentDocument) : TournamentDocument :=
  match others with
  | [] => winner
  | next :: others' => spec_pairwise (spec_one_sided_rule winner next) others'
  end.

(** The later-created of two records. *)
Definition laterCreated (a b : TournamentDocument) : TournamentDocument :=
  if creationTime a <? creationTime b then b else a.

(** *** Sample data *)

Definition mkDoc (seconds unique : Z) (nm : option string) (g : string)
    (act : bool) : TournamentDocument :=
  {| toObject := {| _id := Z.shiftl seconds 64 + unique;
                    name := nm; guildID := g; active := act |} |}.

Definition guildA : GuildSettings :=
  {| settings_id := 1; settings_guildID := "A" |}.

Definition spring : TournamentDocument := mkDoc 2000 1 (Some "Spring") "A" true.
Definition winter : TournamentDocument := mkDoc 1000 2 (Some "Winter") "A" true.
Definition draft : TournamentDocument := mkDoc 3000 3 (Some "") "A" true.
Definition nameless : TournamentDocument := mkDoc 500 4 None "A" true.
Definition closed : TournamentDocument := mkDoc 4000 5 (Some "Closed") "A" false.
Definition elsewhere : TournamentDocument := mkDoc 5000 6 (Some "Other") "B" true.

End Schema.

(** ** The profile slash command *)

Module Profile.

(** *** Platform and persistence objects

    Only the fields the command reads are kept. *)

Inductive Client : Type := TournamentionClient_instance.

Record User : Type := {
  user_id : string;
  avatarURL : option string
}.

Record GuildMember : Type := {
  displayName : string;
  user : User
}.

Record Guild : Type := { guild_id : string }.

Record Contestant : Type := {
  contestant_guildID : string;
  contestant_userID : string
}.

Record CommandInteractionOption : Type := {
  option_name : string;
  option_user : option User
}.

(** [interaction.guildId] is cast with [as string] and taken as present;
    [interaction.member] is dereferenced behind a non-null assertion, which
    the runtime does not check, so it stays nullable here. *)
Record LimitedCommandInteraction : Type := {
  interaction_guildId : string;
  interaction_member : option GuildMember;
  interaction_options : list CommandInteractionOption
}.

(** [interaction.options.get(name, false)]: the option of that name, or
    [null]. *)
Definition options_get (interaction : LimitedCommandInteraction)
    (name : string) : option CommandInteractionOption :=
  find (fun o => (option_name o =? name)%string) (interaction_options interaction).

(** *** Statuses and outcomes *)

(** [ProfileStatus]: the command's own status and the generic ones this
    command produces. *)
Inductive ProfileStatus : Type :=
| SUCCESS_DETAILS
| FAIL_VALIDATION
| FAIL_UNKNOWN.

Definition ProfileStatus_eqb (a b : ProfileStatus) : bool :=
  match a, b with
  | SUCCESS_DETAILS, SUCCESS_DETAILS
  | FAIL_VALIDATION, FAIL_VALIDATION
  | FAIL_UNKNOWN, FAIL_UNKNOWN => true
  | _, _ => false
  end.

Record UserDetails : Type := {
  name : string;
  icon : string
}.

(** The object found under [body] at run time. The static types promise one
    shape per status; the value itself is any of the three object literals
    the code builds. *)
Inductive Body : Type :=
| EmptyBody
| DetailsBody (currentPoints careerPoints : Z) (userDetails : UserDetails)
| ValidationBody (constraint field value context : string).

Record ProfileOutcome : Type := {
  status : ProfileStatus;
  body : Body
}.

Record ProfileSolverParams : Type := {
  guildId : string;
  memberId : string
}.

(** *** Constraint maps *)

Definition Constraint : Type := string.

Inductive OptionKey : Type :=
| ForOption (o : CommandInteractionOption)
| ForNull
| ALWAYS_OPTION_CONSTRAINT.

Definition MetadataConstraints : Type := list (string * list Constraint).
Definition OptionConstraints : Type := list (OptionKey * list Constraint).

(** *** The collaborators

    Every function the command imports is a field of the world: what it
    answers for given arguments, either by throwing at the call or by
    returning a promise that is fulfilled or rejected, and after how many
    turns of the event loop that promise settles. *)

(** The calls made to the collaborators, with their arguments. *)
Inductive Call : Type :=
| CallGetInstance
| CallGuildsFetch (client : Client) (guildId : string)
| CallMembersFetch (guild : Guild) (memberId : string)
| CallGetOrCreateContestant (guildId memberId : string)
| CallGetCareerPoints (contestant : Contestant)
| CallGetCurrentTournament (guildId : string)
| CallGetPointsForTournament (contestant : Contestant)
    (tournament : Schema.TournamentDocument)
| CallValidateConstraints (interaction : LimitedCommandInteraction)
    (metadataConstraints : MetadataConstraints)
    (optionConstraints : OptionConstraints).

Record World : Type := {
  TournamentionClient_getInstance : completion (Promise Client);
  guilds_fetch : Client -> string -> completion (Promise Guild);
  members_fetch : Guild -> string -> completion (Promise GuildMember);
  getOrCreateContestant : string -> string -> completion (Promise Contestant);
  getCareerPointsOfContestant : Contestant -> completion (Promise Z);
  getCurrentTournament :
    string -> completion (Promise (option Schema.TournamentDocument));
  getPointsOfContestantForTournament :
    Contestant -> Schema.TournamentDocument -> completion (Promise Z);
  validateConstraints :
    LimitedCommandInteraction -> MetadataConstraints -> OptionConstraints ->
    completion (Promise unit);
  settlesAfter : Call -> nat
}.

(** *** Promises in time

    Time counts the turns of the event loop. A promise object knows the turn
    in which it settles. A promise that will reject and has no handler yet
    is floating: the handler is attached where the promise is awaited. When
    the function is suspended beyond the turn in which a floating promise
    rejects, that rejection is unhandled and, as Node does by default, ends
    the process. *)

Record Pending (A : Type) : Type := {
  promiseId : nat;
  settlesAt : nat;
  settlement : Promise A
}.
Arguments promiseId {A} p.
Arguments settlesAt {A} p.
Arguments settlement {A} p.

Record Floating : Type := {
  floatingId : nat;
  rejectsAt : nat;
  rejection : Error
}.

Record State : Type := {
  log : list Call;
  now : nat;
  created : nat;
  floating : list Floating
}.

(** How a run ends: the function completes, by returning or by throwing to
    its caller, or the process ends first on an unhandled rejection. *)
Inductive Ending (A : Type) : Type :=
| Completed (c : completion A)
| ProcessEnded (unhandled : Error).
Arguments Completed {A} c.
Arguments ProcessEnded {A} unhandled.

(** The floating rejection that arrives first. *)
Fixpoint earliest (fs : list Floating) : option Floating :=
  match fs with
  | [] => None
  | f :: rest =>
      match earliest rest with
      | Some g => if (rejectsAt g <? rejectsAt f)%nat then Some g else Some f
      | None => Some f
      end
  end.

(** The first floating rejection of a turn before [turn]. *)
Definition firstUnhandled (fs : list Floating) (turn : nat) : option Floating :=
  earliest (filter (fun f => (rejectsAt f <? turn)%nat) fs).

(** *** Computations: an ending together with the state reached *)

Definition M (A : Type) : Type := State -> Ending A * State.

Definition ret {A : Type} (a : A) : M A :=
  fun st => (Completed (Normal a), st).

Definition throw {A : Type} (e : Error) : M A :=
  fun st => (Completed (Thrown e), st).

Definition bind {A B : Type} (m : M A) (k : A -> M B) : M B :=
  fun st =>
    match m st with
    | (Completed (Normal a), st') => k a st'
    | (Completed (Thrown e), st') => (Completed (Thrown e), st')
    | (ProcessEnded e, st') => (ProcessEnded e, st')
    end.

(** [try { m } catch (err) { handler err }]. *)
Definition try_catch {A : Type} (m : M A) (handler : Error -> M A) : M A :=
  fun st =>
    match m st with
    | (Completed (Normal a), st') => (Completed (Normal a), st')
    | (Completed (Thrown e), st') => handler e st'
    | (ProcessEnded e, st') => (ProcessEnded e, st')
    end.

(** Calling a collaborator records the call. The call throws, or it gives a
    promise object, which floats from then on if it is going to reject. *)
Definition call {A : Type} (w : World) (c : Call)
    (answer : completion (Promise A)) : M (Pending A) :=
  fun st =>
    match answer with
    | Thrown e =>
        (Completed (Thrown e),
         {| log := (log st ++ [c])%list; now := now st;
            created := created st; floating := floating st |})
    | Normal p =>
        let turn := (now st + settlesAfter w c)%nat in
        (Completed (Normal {| promiseId := created st;
                              settlesAt := turn;
                              settlement := p |}),
         {| log := (log st ++ [c])%list; now := now st;
            created := S (created st);
            floating :=
              match p with
              | Rejected e =>
                  (floating st
                   ++ [ {| floatingId := created st; rejectsAt := turn;
                           rejection := e |} ])%list
              | Fulfilled _ => floating st
              end |})
    end.

(** [new Promise((resolve) => resolve(a))]. *)
Definition resolved {A : Type} (a : A) : M (Pending A) :=
  fun st =>
    (Completed (Normal {| promiseId := created st;
                          settlesAt := now st;
                          settlement := Fulfilled a |}),
     {| log := log st; now := now st; created := S (created st);
        floating := floating st |}).

(** [await p]: the handler is attached to [p], and the function resumes in
    the turn in which [p] settles, or at once if it has settled. If another
    floating promise rejects in a turn before that, the process ends. *)
Definition await {A : Type} (p : Pending A) : M A :=
  fun st =>
    let resumed := Nat.max (now st) (settlesAt p) in
    let others :=
      filter (fun f => negb (floatingId f =? promiseId p)%nat) (floating st) in
    let st' := {| log := log st; now := resumed; created := created st;
                  floating := others |} in
    match firstUnhandled others resumed with
    | Some f => (ProcessEnded (rejection f), st')
    | None =>
        match settlement p with
        | Fulfilled a => (Completed (Normal a), st')
        | Rejected e => (Completed (Thrown e), st')
        end
    end.

Definition start : State :=
  {| log := []; now := 0%nat; created := 0%nat; floating := [] |}.

(** Running a computation from the start: how it ends and the calls made. *)
Definition run {A : Type} (m : M A) : Ending A * list Call :=
  (fst (m start), log (snd (m start))).

(** The rejections still floating when the run is over: nothing will handle
    them any more. *)
Definition leftFloating {A : Type} (m : M A) : list Error :=
  map rejection (floating (snd (m start))).

Declare Scope js_scope.
Delimit Scope js_scope with js.
Notation "x <- m ;; k" := (bind m (fun x => k))
  (at level 61, m at next level, right associativity) : js_scope.

Local Open Scope js_scope.

(** *** The solver *)

(** The icon used when the member has no avatar. *)
Definition defaultIcon : string :=
  "https://static.wikia.nocookie.net/minecraft_gamepedia/images/0/02/Pointer_%28texture%29_JE1_BE1.png".

(** The body of the [try] block of [profileSolver]: it either returns the
    success outcome or throws. [guild] and the promise made on line 102 are
    awaited in the turn they are made; [member] and [careerPoints] are
    awaited only when the outcome is assembled. *)
Definition profileSolver_try (w : World) (params : ProfileSolverParams)
  : M ProfileOutcome :=
  instance <- call w CallGetInstance (TournamentionClient_getInstance w) ;;
  client <- await instance ;;
  guild <- call w (CallGuildsFetch client (guildId params))
             (guilds_fetch w client (guildId params)) ;;
  theGuild <- await guild ;;
  member <- call w (CallMembersFetch theGuild (memberId params))
              (members_fetch w theGuild (memberId params)) ;;
  created <- call w (CallGetOrCreateContestant (guildId params) (memberId params))
               (getOrCreateContestant w (guildId params) (memberId params)) ;;
  contestant <- await created ;;
  careerPoints <- call w (CallGetCareerPoints contestant)
                    (getCareerPointsOfContestant w contestant) ;;
  looked <- call w (CallGetCurrentTournament (guildId params))
              (getCurrentTournament w (guildId params)) ;;
  currentTournament <- await looked ;;
  sentinel <- resolved (-1) ;;
  currentPoints <-
    match currentTournament with
    | Some tournament =>
        call w (CallGetPointsForTournament contestant tournament)
          (getPointsOfContestantForTournament w contestant tournament)
    | None => ret sentinel
    end ;;
  current <- await currentPoints ;;
  career <- await careerPoints ;;
  member1 <- await member ;;
  member2 <- await member ;;
  ret {| status := SUCCESS_DETAILS;
         body := DetailsBody current career
                   {| name := displayName member1;
                      icon := match avatarURL (user member2) with
                              | Some url => url
                              | None => defaultIcon
                              end |} |}.

(** [profileSolver]: the [catch] block is empty, so after any throw control
    reaches the final [return]. *)
Definition profileSolver (w : World) (params : ProfileSolverParams)
  : M ProfileOutcome :=
  try_catch (profileSolver_try w params)
    (fun err => ret {| status := FAIL_UNKNOWN; body := EmptyBody |}).

(** *** The validator *)

(** [profileSlashCommandValidator]. The [try] statement yields [Some o] when
    its [catch] block returns the outcome [o] from the function, and [None]
    when control continues after it. *)
Definition profileSlashCommandValidator (w : World)
    (interaction : LimitedCommandInteraction)
  : M (ProfileSolverParams + ProfileOutcome) :=
  let metadataConstraints : MetadataConstraints := [] in
  let optionConstraints : OptionConstraints := [] in
  returned <-
    try_catch
      (validation <- call w (CallValidateConstraints interaction
                               metadataConstraints optionConstraints)
                       (validateConstraints w interaction
                          metadataConstraints optionConstraints) ;;
       _ <- await validation ;;
       ret None)
      (fun err =>
         match err with
         | OptionValidationError constraint field value message =>
             ret (Some {| status := FAIL_VALIDATION;
                          body := ValidationBody constraint field value message |})
         | _ => throw err
         end) ;;
  match returned with
  | Some outcome => ret (inr outcome)
  | None =>
      let theGuildId := interaction_guildId interaction in
      theMemberId <-
        match
          match options_get interaction "user" with
          | Some o => match option_user o with
                      | Some u => Some (user_id u)
                      | None => None
                      end
          | None => None
          end
        with
        | Some id => ret id
        | None =>
            match interaction_member interaction with
            | Some m => ret (user_id (user m))
            | None =>
                throw (TypeError "Cannot read properties of null (reading 'user')")
            end
        end ;;
      ret (inl {| guildId := theGuildId; memberId := theMemberId |})
  end.

(** *** The description map *)

Record Embed : Type := {
  title : string;
  description : string;
  thumbnail : string
}.

Record SlashCommandEmbedDescribedOutcome : Type := {
  embeds : list Embed;
  ephemeral : bool
}.

(** What the renderer takes from the runtime and from the embed builder of
    the platform library: how a number is printed inside a template
    literal, and the error, if any, with which each setter of the builder
    refuses its argument. *)
Record Rendering : Type := {
  Number_toString : Z -> string;
  setTitle : string -> option Error;
  setDescription : string -> option Error;
  setThumbnail : string -> option Error
}.

Definition newline : string := String (ascii_of_nat 10) "".

(** [new EmbedBuilder().setTitle(t).setDescription(d).setThumbnail(u).toJSON()]
    inside the reply; each argument is computed just before its setter is
    called. *)
Definition buildReply (r : Rendering) (theTitle theDescription theThumbnail : string)
  : completion SlashCommandEmbedDescribedOutcome :=
  match setTitle r theTitle with
  | Some e => Thrown e
  | None =>
      match setDescription r theDescription with
      | Some e => Thrown e
      | None =>
          match setThumbnail r theThumbnail with
          | Some e => Thrown e
          | None =>
              Normal {| embeds := [ {| title := theTitle;
                                       description := theDescription;
                                       thumbnail := theThumbnail |} ];
                        ephemeral := true |}
          end
      end
  end.

(** The renderer registered for [SUCCESS_DETAILS]. The cast of [o] is
    erased at run time: on a body without [userDetails] the property read
    [oBody.userDetails.name], the first thing evaluated, throws. *)
Definition describeSuccessDetails (r : Rendering) (o : ProfileOutcome)
  : completion SlashCommandEmbedDescribedOutcome :=
  match body o with
  | DetailsBody currentPoints careerPoints userDetails =>
      buildReply r
        (name userDetails ++ "'s Profile")
        ("**Current Points:** " ++ Number_toString r currentPoints
         ++ newline
         ++ "**Career Points:** " ++ Number_toString r careerPoints)
        (icon userDetails)
  | _ =>
      Thrown (TypeError "Cannot read properties of undefined (reading 'name')")
  end.

Definition profileSlashCommandDescriptions (r : Rendering)
  : list (ProfileStatus
          * (ProfileOutcome -> completion SlashCommandEmbedDescribedOutcome)) :=
  [ (SUCCESS_DETAILS, describeSuccessDetails r) ].

(** [Map.prototype.get]. *)
Definition descriptions_get (r : Rendering) (key : ProfileStatus)
  : option (ProfileOutcome -> completion SlashCommandEmbedDescribedOutcome) :=
  match find (fun entry => ProfileStatus_eqb (fst entry) key)
          (profileSlashCommandDescriptions r) with
  | Some entry => Some (snd entry)
  | None => None
  end.

End Profile.

(** ** Vocabulary of the properties *)

Module Properties.
Import Profile.

(** *** The outcome invariant: the status fixes the shape of the body *)

Inductive Shape : Type := EmptyShape | DetailsShape | ValidationShape.

Definition Shape_eqb (a b : Shape) : bool :=
  match a, b with
  | EmptyShape, EmptyShape
  | DetailsShape, DetailsShape
  | ValidationShape, ValidationShape => true
  | _, _ => false
  end.

Definition shapeOf (b : Body) : Shape :=
  match b with
  | EmptyBody => EmptyShape
  | DetailsBody _ _ _ => DetailsShape
  | ValidationBody _ _ _ _ => ValidationShape
  end.

(** The shape each status declares in the outcome types. *)
Definition declaredShape (s : ProfileStatus) : Shape :=
  match s with
  | SUCCESS_DETAILS => DetailsShape
  | FAIL_UNKNOWN => EmptyShape
  | FAIL_VALIDATION => ValidationShape
  end.

Definition wellShaped (o : ProfileOutcome) : bool :=
  Shape_eqb (shapeOf (body o)) (declaredShape (status o)).

(** An outcome that the solver returns for some parameters, or that the
    validator returns for some interaction. *)
Definition producedBy (w : World) (o : ProfileOutcome) : Prop :=
  (exists params, fst (run (profileSolver w params)) = Completed (Normal o))
  \/ (exists interaction,
        fst (run (profileSlashCommandValidator w interaction))
        = Completed (Normal (inr o))).

(** *** Calls that raise *)

(** A call raises when it throws at once or its promise is rejected. *)
Definition raises {A : Type} (answer : completion (Promise A)) : bool :=
  match answer with
  | Normal (Fulfilled _) => false
  | Normal (Rejected _) => true
  | Thrown _ => true
  end.

Definition callRaises (w : World) (c : Call) : bool :=
  match c with
  | CallGetInstance => raises (TournamentionClient_getInstance w)
  | CallGuildsFetch client g => raises (guilds_fetch w client g)
  | CallMembersFetch guild m => raises (members_fetch w guild m)
  | CallGetOrCreateContestant g m => raises (getOrCreateContestant w g m)
  | CallGetCareerPoints c => raises (getCareerPointsOfContestant w c)
  | CallGetCurrentTournament g => raises (getCurrentTournament w g)
  | CallGetPointsForTournament c t =>
      raises (getPointsOfContestantForTournament w c t)
  | CallValidateConstraints i mc oc => raises (validateConstraints w i mc oc)
  end.

(** The two promises that the solver stores and awaits only when it
    assembles the outcome do not reject (the calls may still throw). *)
Definition lateAwaitedHold (w : World) : Prop :=
  (forall guild m e, members_fetch w guild m <> Normal (Rejected e))
  /\ (forall contestant e,
        getCareerPointsOfContestant w contestant <> Normal (Rejected e)).

(** The error a raising call carries. *)
Definition raisedBy {A : Type} (answer : completion (Promise A)) (e : Error)
  : Prop :=
  answer = Thrown e \/ answer = Normal (Rejected e).

Definition isOptionValidationError (e : Error) : bool :=
  match e with
  | OptionValidationError _ _ _ _ => true
  | _ => false
  end.

(** The member id a call is made with, for the calls that take one. *)
Definition memberIdArgument (c : Call) : option string :=
  match c with
  | CallMembersFetch _ m => Some m
  | CallGetOrCreateContestant _ m => Some m
  | _ => None
  end.

(** The interaction names no target: there is no [user] option, or it
    carries no user. *)
Definition noTarget (interaction : LimitedCommandInteraction) : Prop :=
  forall o, options_get interaction "user" = Some o -> option_user o = None.

Definition failUnknown : ProfileOutcome :=
  {| status := FAIL_UNKNOWN; body := EmptyBody |}.

(** *** Sample data *)

Definition alice : GuildMember :=
  {| displayName := "Alice";
     user := {| user_id := "1001"; avatarURL := None |} |}.

Definition bob : User :=
  {| user_id := "2002"; avatarURL := Some "https://cdn.example/bob.png" |}.

Definition aliceContestant : Contestant :=
  {| contestant_guildID := "A"; contestant_userID := "1001" |}.

(** A world in which the platform and the store answer every call; the
    validation answer and the current tournament are left open. *)
Definition answering (validation : completion (Promise unit))
    (current : completion (Promise (option Schema.TournamentDocument)))
  : World :=
  {| TournamentionClient_getInstance :=
       Normal (Fulfilled TournamentionClient_instance);
     guilds_fetch := fun _ g => Normal (Fulfilled {| guild_id := g |});
     members_fetch := fun _ m =>
       Normal (Fulfilled {| displayName := "Alice";
                            user := {| user_id := m; avatarURL := None |} |});
     getOrCreateContestant := fun g m =>
       Normal (Fulfilled {| contestant_guildID := g; contestant_userID := m |});
     getCareerPointsOfContestant := fun _ => Normal (Fulfilled 42);
     getCurrentTournament := fun _ => current;
     getPointsOfContestantForTournament := fun _ _ => Normal (Fulfilled 7);
     validateConstraints := fun _ _ _ => validation;
     settlesAfter := fun _ => 1%nat |}.

Definition calm : World :=
  answering (Normal (Fulfilled tt)) (Normal (Fulfilled None)).

Definition stormy : World :=
  answering (Normal (Fulfilled tt)) (Normal (Rejected (OtherError "store down"))).

Definition strict : World :=
  answering
    (Normal (Rejected (OptionValidationError "isMember" "user" "2002" "not a member")))
    (Normal (Fulfilled None)).

Definition broken : World :=
  answering (Thrown (OtherError "constraint map corrupted"))
    (Normal (Fulfilled None)).

Definition plainRequest : LimitedCommandInteraction :=
  {| interaction_guildId := "A";
     interaction_member := Some alice;
     interaction_options := [] |}.

Definition emptyTargetRequest : LimitedCommandInteraction :=
  {| interaction_guildId := "A";
     interaction_member := Some alice;
     interaction_options := [ {| option_name := "user"; option_user := None |} ] |}.

Definition targetRequest : LimitedCommandInteraction :=
  {| interaction_guildId := "A";
     interaction_member := Some alice;
     interaction_options := [ {| option_name := "user"; option_user := Some bob |} ] |}.

Definition aliceParams : ProfileSolverParams :=
  {| guildId := "A"; memberId := "1001" |}.

(** *** Where the arguments of the solver's calls come from *)

(** What entitles the solver to make the call [c] for [params]: the ids are
    those of [params], and every object passed on is the answer of the call
    that was to produce it. *)
Definition callJustified (w : World) (params : ProfileSolverParams) (c : Call)
  : Prop :=
  match c with
  | CallGetInstance => True
  | CallGuildsFetch client g =>
      g = guildId params
      /\ TournamentionClient_getInstance w = Normal (Fulfilled client)
  | CallMembersFetch guild m =>
      m = memberId params
      /\ exists client,
           TournamentionClient_getInstance w = Normal (Fulfilled client)
           /\ guilds_fetch w client (guildId params) = Normal (Fulfilled guild)
  | CallGetOrCreateContestant g m =>
      g = guildId params /\ m = memberId params
  | CallGetCareerPoints contestant =>
      getOrCreateContestant w (guildId params) (memberId params)
      = Normal (Fulfilled contestant)
  | CallGetCurrentTournament g => g = guildId params
  | CallGetPointsForTournament contestant tournament =>
      getOrCreateContestant w (guildId params) (memberId params)
      = Normal (Fulfilled contestant)
      /\ getCurrentTournament w (guildId params)
         = Normal (Fulfilled (Some tournament))
  | CallValidateConstraints _ _ _ => False
  end.

(** The calls that go to the persistence layer. *)
Definition isStoreCall (c : Call) : bool :=
  match c with
  | CallGetOrCreateContestant _ _
  | CallGetCareerPoints _
  | CallGetCurrentTournament _
  | CallGetPointsForTournament _ _ => true
  | _ => false
  end.

(** *** More sample data *)

Definition busy : World :=
  answering (Normal (Fulfilled tt)) (Normal (Fulfilled (Some Schema.spring))).

(** [calm], except that the member is unknown to the guild: the platform
    says so after one turn, while the store takes two turns to look up or
    create the contestant. *)
Definition memberless : World :=
  {| TournamentionClient_getInstance := TournamentionClient_getInstance calm;
     guilds_fetch := guilds_fetch calm;
     members_fetch := fun _ _ => Normal (Rejected (OtherError "Unknown Member"));
     getOrCreateContestant := getOrCreateContestant calm;
     getCareerPointsOfContestant := getCareerPointsOfContestant calm;
     getCurrentTournament := getCurrentTournament calm;
     getPointsOfContestantForTournament := getPointsOfContestantForTournament calm;
     validateConstraints := validateConstraints calm;
     settlesAfter := fun c =>
       match c with
       | CallGetOrCreateContestant _ _ => 2%nat
       | _ => 1%nat
       end |}.

(** [memberless] with a store that answers within the turn of the call. *)
Definition memberlessQuickStore : World :=
  {| TournamentionClient_getInstance := TournamentionClient_getInstance calm;
     guilds_fetch := guilds_fetch calm;
     members_fetch := members_fetch memberless;
     getOrCreateContestant := getOrCreateContestant calm;
     getCareerPointsOfContestant := getCareerPointsOfContestant calm;
     getCurrentTournament := getCurrentTournament calm;
     getPointsOfContestantForTournament := getPointsOfContestantForTournament calm;
     validateConstraints := validateConstraints calm;
     settlesAfter := fun c => if isStoreCall c then 0%nat else 1%nat |}.

(** [calm], except that the guild cannot be fetched. *)
Definition offline : World :=
  {| TournamentionClient_getInstance := TournamentionClient_getInstance calm;
     guilds_fetch := fun _ _ => Normal (Rejected (OtherError "Unknown Guild"));
     members_fetch := members_fetch calm;
     getOrCreateContestant := getOrCreateContestant calm;
     getCareerPointsOfContestant := getCareerPointsOfContestant calm;
     getCurrentTournament := getCurrentTournament calm;
     getPointsOfContestantForTournament := getPointsOfContestantForTournament calm;
     validateConstraints := validateConstraints calm;
     settlesAfter := settlesAfter calm |}.

(** A rendering that prints integers in decimal digits and whose builder
    accepts every field. *)
Definition lenient : Rendering :=
  {| Number_toString := fun n => NilZero.string_of_int (Z.to_int n);
     setTitle := fun _ => None;
     setDescription := fun _ => None;
     setThumbnail := fun _ => None |}.

(** A rendering whose builder refuses a thumbnail that is the empty
    string. *)
Definition wary : Rendering :=
  {| Number_toString := Number_toString lenient;
     setTitle := fun _ => None;
     setDescription := fun _ => None;
     setThumbnail := fun u =>
       if (u =? "")%string then Some (OtherError "Invalid URL") else None |}.

Definition memberlessRequest : LimitedCommandInteraction :=
  {| interaction_guildId := "A";
     interaction_member := None;
     interaction_options := [] |}.

Definition memberlessTargetRequest : LimitedCommandInteraction :=
  {| interaction_guildId := "A";
     interaction_member := None;
     interaction_options :=
       [ {| option_name := "tournament"; option_user := None |};
         {| option_name := "user"; option_user := Some bob |} ] |}.

End Properties.

(** ** Properties of the tournament selection *)

Section Selection.
Import Schema.

Lemma truthy_false_iff (n : option string) :
  truthy n = false <-> n = None \/ n = Some "".
Proof.
  destruct n as [[|c s]|]; simpl; split; intro H; auto;
    try discriminate; destruct H as [H|H]; discriminate.
Qed.

Lemma named_truthy (t : TournamentDocument) :
  named t -> truthy (name (toObject t)) = true.
Proof.
  intros [s [Hs Hne]]. rewrite Hs. destruct s; [congruence | reflexivity].
Qed.

Lemma unnamed_truthy (t : TournamentDocument) :
  unnamed t -> truthy (name (toObject t)) = false.
Proof. intro H. apply truthy_false_iff. exact H. Qed.

Lemma keepsPrev_true_iff (prev curr : TournamentDocument) :
  keepsPrev prev curr = true
  <-> unnamed prev /\ creationTime curr < creationTime prev.
Proof.
  unfold keepsPrev, unnamed, creationTime. cbv zeta.
  rewrite andb_true_iff, negb_true_iff, truthy_false_iff, Z.gtb_ltb, Z.ltb_lt.
  reflexivity.
Qed.

Lemma keepsPrev_named (prev curr : TournamentDocument) :
  named prev -> keepsPrev prev curr = false.
Proof.
  intro H. unfold keepsPrev. cbv zeta. rewrite (named_truthy _ H). reflexivity.
Qed.

Lemma reducer_is_spec_rule (prev curr : TournamentDocument) :
  reducer prev curr = spec_one_sided_rule prev curr.
Proof.
  unfold reducer, keepsPrev, spec_one_sided_rule, creationTime. cbv zeta.
  rewrite Z.gtb_ltb.
  destruct (name (toObject prev)) as [[|c s]|]; reflexivity.
Qed.

Lemma fold_left_reducer_is_spec_pairwise (others : list TournamentDocument) :
  forall winner, fold_left reducer others winner = spec_pairwise winner others.
Proof.
  induction others as [|next others IH]; intro winner; simpl.
  - reflexivity.
  - rewrite IH, reducer_is_spec_rule. reflexivity.
Qed.

Lemma getCurrentTournament_unfold (collection : list TournamentDocument)
    (this : GuildSettings) :
  getCurrentTournament collection this
  = match Array_reduce reducer (activeTournaments collection this) with
    | Thrown e => Thrown e
    | Normal t => Normal (Some t)
    end.
Proof. reflexivity. Qed.

Lemma named_spring : named spring.
Proof. exists "Spring". split; [reflexivity | discriminate]. Qed.

Lemma named_winter : named winter.
Proof. exists "Winter". split; [reflexivity | discriminate]. Qed.

Lemma unnamed_draft : unnamed draft.
Proof. right. reflexivity. Qed.

Lemma unnamed_nameless : unnamed nameless.
Proof. left. reflexivity. Qed.

(** C1 (as the code behaves): when no record of the guild is flagged active,
    the reduction runs on an empty array and [getCurrentTournament] throws a
    [TypeError]; the [null] of its last line is never reached. *)
Theorem getCurrentTournament_throws_without_active
    (collection : list TournamentDocument) (this : GuildSettings) :
  activeTournaments collection this = [] ->
  getCurrentTournament collection this
  = Thrown (TypeError "Reduce of empty array with no initial value").
Proof.
  intro H. rewrite getCurrentTournament_unfold, H. reflexivity.
Qed.

Lemma getCurrentTournament_throws_without_active_witness :
  activeTournaments [closed; elsewhere] guildA = []
  /\ getCurrentTournament [closed; elsewhere] guildA
     = Thrown (TypeError "Reduce of empty array with no initial value")
  /\ getCurrentTournament [] guildA
     = Thrown (TypeError "Reduce of empty array with no initial value").
Proof.
  split; [reflexivity | split].
  - apply (getCurrentTournament_throws_without_active [closed; elsewhere] guildA).
    reflexivity.
  - apply (getCurrentTournament_throws_without_active [] guildA).
    reflexivity.
Defined.

(** A single active record is returned as it is. *)
Lemma getCurrentTournament_single (collection : list TournamentDocument)
    (this : GuildSettings) (only : TournamentDocument) :
  activeTournaments collection this = [only] ->
  getCurrentTournament collection this = Normal (Some only).
Proof.
  intro H. rewrite getCurrentTournament_unfold, H. reflexivity.
Qed.

(** C3: with two or more active records, [getCurrentTournament] returns the
    result of the pairwise reduction from left to right under the literal
    one-sided rule, and the comparison keeps prev exactly when prev has no
    name and prev's creation timestamp is strictly greater than curr's; in
    every other case it takes curr. *)
Theorem getCurrentTournament_reduces_by_one_sided_rule
    (collection : list TournamentDocument) (this : GuildSettings)
    (first second : TournamentDocument) (rest : list TournamentDocument) :
  activeTournaments collection this = first :: second :: rest ->
  getCurrentTournament collection this
  = Normal (Some (spec_pairwise first (second :: rest)))
  /\ (forall prev curr,
        (keepsPrev prev curr = true
         <-> unnamed prev /\ creationTime prev > creationTime curr)
        /\ reducer prev curr = (if keepsPrev prev curr then prev else curr)
        /\ reducer prev curr = spec_one_sided_rule prev curr).
Proof.
  intro H. split.
  - rewrite getCurrentTournament_unfold, H. unfold Array_reduce.
    rewrite fold_left_reducer_is_spec_pairwise. reflexivity.
  - intros prev curr. split; [| split].
    + rewrite keepsPrev_true_iff. split; intros [Hu Ht]; split; auto; lia.
    + reflexivity.
    + apply reducer_is_spec_rule.
Qed.

Lemma getCurrentTournament_reduces_by_one_sided_rule_witness :
  activeTournaments [draft; closed; winter; elsewhere; nameless; spring] guildA
  = [draft; winter; nameless; spring]
  /\ getCurrentTournament
       [draft; closed; winter; elsewhere; nameless; spring] guildA
     = Normal (Some draft)
  /\ getCurrentTournament [spring; nameless; winter] guildA
     = Normal (Some winter)
  /\ getCurrentTournament [winter; nameless] guildA = Normal (Some nameless).
Proof.
  split; [reflexivity | split; [| split]].
  - exact (proj1 (getCurrentTournament_reduces_by_one_sided_rule
                    [draft; closed; winter; elsewhere; nameless; spring] guildA
                    draft winter [nameless; spring] eq_refl)).
  - exact (proj1 (getCurrentTournament_reduces_by_one_sided_rule
                    [spring; nameless; winter] guildA
                    spring nameless [winter] eq_refl)).
  - exact (proj1 (getCurrentTournament_reduces_by_one_sided_rule
                    [winter; nameless] guildA winter nameless [] eq_refl)).
Defined.

(** C4 as stated fails in both positions: [draft] has an empty name and
    [winter] has a name, yet [draft] wins as prev (its timestamp is the
    greater one) and wins as curr (a named prev is never kept). *)
Lemma unnamed_record_beats_named_record :
  unnamed draft /\ named winter
  /\ creationTime draft = 3000000 /\ creationTime winter = 1000000
  /\ reducer draft winter = draft
  /\ reducer winter draft = draft
  /\ getCurrentTournament [draft; winter] guildA = Normal (Some draft)
  /\ getCurrentTournament [winter; draft] guildA = Normal (Some draft).
Proof.
  split; [exact unnamed_draft | split; [exact named_winter |]].
  repeat split; reflexivity.
Qed.

(** C4 (amended): against a record that has a name, a record with an empty
    or missing name wins whenever it is curr, and wins as prev exactly when
    its creation timestamp is strictly greater than curr's; otherwise the
    named curr wins. *)
Theorem unnamed_against_named (u n : TournamentDocument) :
  unnamed u -> named n ->
  reducer n u = u
  /\ (creationTime n < creationTime u -> reducer u n = u)
  /\ (creationTime u <= creationTime n -> reducer u n = n).
Proof.
  intros Hu Hn. unfold reducer. split; [| split].
  - rewrite (keepsPrev_named n u Hn). reflexivity.
  - intro Hlt.
    assert (K : keepsPrev u n = true) by (apply keepsPrev_true_iff; auto).
    rewrite K. reflexivity.
  - intro Hle.
    destruct (keepsPrev u n) eqn:K; [| reflexivity].
    apply keepsPrev_true_iff in K. destruct K as [_ K]. lia.
Qed.

Lemma unnamed_against_named_witness :
  reducer winter draft = draft
  /\ reducer draft winter = draft
  /\ reducer nameless spring = spring.
Proof.
  destruct (unnamed_against_named draft winter unnamed_draft named_winter)
    as [Hcurr [Hnewer _]].
  destruct (unnamed_against_named nameless spring unnamed_nameless named_spring)
    as [_ [_ Holder]].
  split; [exact Hcurr | split].
  - apply Hnewer. reflexivity.
  - apply Holder. vm_compute. discriminate.
Defined.

(** C5 as stated fails: [spring] and [winter] are both named and active,
    [spring] is the later-created one, and when the store lists [spring]
    before [winter] the earlier-created [winter] is returned. *)
Lemma earlier_created_returned_when_listed_last :
  activeTournaments [spring; closed; elsewhere; winter] guildA = [spring; winter]
  /\ named spring /\ named winter
  /\ creationTime spring = 2000000 /\ creationTime winter = 1000000
  /\ laterCreated spring winter = spring
  /\ getCurrentTournament [spring; closed; elsewhere; winter] guildA
     = Normal (Some winter)
  /\ winter <> spring.
Proof.
  split; [reflexivity |].
  split; [exact named_spring | split; [exact named_winter |]].
  repeat split; try reflexivity. discriminate.
Qed.

(** C5 (amended): with exactly two active records, both named and created
    at distinct times, [getCurrentTournament] returns the one the data
    store lists last; that is the later-created one exactly when the store
    lists the records in order of creation. *)
Theorem two_named_active_returns_last_listed
    (collection : list TournamentDocument) (this : GuildSettings)
    (a b : TournamentDocument) :
  activeTournaments collection this = [a; b] ->
  creationTime a <> creationTime b ->
  named a -> named b ->
  getCurrentTournament collection this = Normal (Some b)
  /\ (b = laterCreated a b <-> creationTime a < creationTime b).
Proof.
  intros Hact Hts Ha Hb. split.
  - rewrite getCurrentTournament_unfold, Hact. simpl. unfold reducer.
    rewrite (keepsPrev_named a b Ha). reflexivity.
  - unfold laterCreated. destruct (creationTime a <? creationTime b) eqn:E.
    + apply Z.ltb_lt in E. split; auto.
    + apply Z.ltb_ge in E. split; [| lia].
      intro Heq. subst b. contradiction Hts. reflexivity.
Qed.

Lemma two_named_active_returns_last_listed_witness :
  getCurrentTournament [winter; closed; elsewhere; spring] guildA
  = Normal (Some spring)
  /\ (spring = laterCreated winter spring <-> creationTime winter < creationTime spring).
Proof.
  apply (two_named_active_returns_last_listed
           [winter; closed; elsewhere; spring] guildA winter spring).
  - reflexivity.
  - vm_compute. discriminate.
  - exact named_winter.
  - exact named_spring.
Defined.

(** *** Further properties of the selection *)

Lemma reducer_selects (prev curr : TournamentDocument) :
  reducer prev curr = prev \/ reducer prev curr = curr.
Proof. unfold reducer. destruct (keepsPrev prev curr); auto. Qed.

Lemma fold_left_reducer_In (others : list TournamentDocument) :
  forall seed, In (fold_left reducer others seed) (seed :: others).
Proof.
  induction others as [|next others IH]; intro seed; simpl.
  - left. reflexivity.
  - destruct (IH (reducer seed next)) as [H|H].
    + rewrite <- H.
      destruct (reducer_selects seed next) as [E|E]; rewrite E; auto.
    + right. right. exact H.
Qed.

Lemma activeTournaments_In (collection : list TournamentDocument)
    (this : GuildSettings) (t : TournamentDocument) :
  In t (activeTournaments collection this)
  <-> In t collection
      /\ guildID (toObject t) = settings_guildID this
      /\ active (toObject t) = true.
Proof.
  unfold activeTournaments, Array_filter, TournamentModel_find.
  rewrite !filter_In, String.eqb_eq. tauto.
Qed.

Lemma activeTournaments_app (before after : list TournamentDocument)
    (this : GuildSettings) :
  activeTournaments (before ++ after) this
  = (activeTournaments before this ++ activeTournaments after this)%list.
Proof.
  unfold activeTournaments, Array_filter, TournamentModel_find.
  rewrite !filter_app. reflexivity.
Qed.

(** X1: a guild with exactly one active record gets that record, as it is;
    the callback of the reduction is not consulted. *)
Theorem single_active_record_is_returned
    (collection : list TournamentDocument) (this : GuildSettings)
    (only : TournamentDocument) :
  activeTournaments collection this = [only] ->
  getCurrentTournament collection this = Normal (Some only)
  /\ forall callback,
       Array_reduce callback (activeTournaments collection this) = Normal only.
Proof.
  intro H. split.
  - rewrite getCurrentTournament_unfold, H. reflexivity.
  - intro callback. rewrite H. reflexivity.
Qed.

Lemma single_active_record_is_returned_witness :
  getCurrentTournament [closed; nameless; elsewhere] guildA
  = Normal (Some nameless)
  /\ forall callback,
       Array_reduce callback
         (activeTournaments [closed; nameless; elsewhere] guildA)
       = Normal nameless.
Proof.
  exact (single_active_record_is_returned [closed; nameless; elsewhere] guildA
           nameless eq_refl).
Defined.

(** X2: [getCurrentTournament] never yields [null]. It throws exactly when
    the guild has no active record, and otherwise yields a document of the
    collection that belongs to this guild and is flagged active. *)
Theorem getCurrentTournament_never_null
    (collection : list TournamentDocument) (this : GuildSettings) :
  match getCurrentTournament collection this with
  | Thrown e =>
      activeTournaments collection this = []
      /\ e = TypeError "Reduce of empty array with no initial value"
  | Normal None => False
  | Normal (Some t) =>
      activeTournaments collection this <> []
      /\ In t collection
      /\ guildID (toObject t) = settings_guildID this
      /\ active (toObject t) = true
  end.
Proof.
  rewrite getCurrentTournament_unfold.
  destruct (activeTournaments collection this) as [|first rest] eqn:H; simpl.
  - split; reflexivity.
  - split; [discriminate |].
    apply activeTournaments_In. rewrite H. apply fold_left_reducer_In.
Qed.

Lemma fold_left_reducer_named (earlier : list TournamentDocument) :
  forall seed last,
    named seed -> Forall named earlier ->
    fold_left reducer (earlier ++ [last]) seed = last.
Proof.
  induction earlier as [|next earlier IH]; intros seed last Hseed Hall; simpl.
  - unfold reducer. rewrite (keepsPrev_named seed last Hseed). reflexivity.
  - inversion Hall as [|? ? Hnext Hrest]; subst.
    unfold reducer at 2. rewrite (keepsPrev_named seed next Hseed).
    apply IH; assumption.
Qed.

(** X3: when every active record but possibly the last listed one has a
    name, the timestamps play no part: the record the store lists last is
    the current tournament. *)
Theorem named_records_yield_last_listed
    (collection : list TournamentDocument) (this : GuildSettings)
    (earlier : list TournamentDocument) (last : TournamentDocument) :
  activeTournaments collection this = (earlier ++ [last])%list ->
  Forall named earlier ->
  getCurrentTournament collection this = Normal (Some last).
Proof.
  intros H Hall. rewrite getCurrentTournament_unfold, H.
  destruct earlier as [|first earlier]; simpl.
  - reflexivity.
  - inversion Hall as [|? ? Hfirst Hrest]; subst.
    rewrite (fold_left_reducer_named earlier first last Hfirst Hrest).
    reflexivity.
Qed.

Lemma named_records_yield_last_listed_witness :
  getCurrentTournament [spring; closed; winter; elsewhere; nameless] guildA
  = Normal (Some nameless).
Proof.
  apply (named_records_yield_last_listed
           [spring; closed; winter; elsewhere; nameless] guildA
           [spring; winter] nameless).
  - reflexivity.
  - repeat constructor; [exact named_spring | exact named_winter].
Defined.

Lemma fold_left_reducer_winner (others : list TournamentDocument) :
  forall seed,
  exists before after,
    seed :: others = (before ++ fold_left reducer others seed :: after)%list
    /\ (after = []
        \/ (unnamed (fold_left reducer others seed)
            /\ Forall (fun later =>
                         creationTime later
                         < creationTime (fold_left reducer others seed))
                 after)).
Proof.
  induction others as [|next others IH]; intro seed; simpl.
  - exists [], []. split; [reflexivity | left; reflexivity].
  - destruct (keepsPrev seed next) eqn:K.
    + assert (E : reducer seed next = seed)
        by (unfold reducer; rewrite K; reflexivity).
      rewrite E.
      apply keepsPrev_true_iff in K. destruct K as [Hu Hlt].
      destruct (IH seed) as [before [after [Hsplit Hafter]]].
      destruct before as [|b before]; simpl in Hsplit.
      * injection Hsplit as Hwin Hrest.
        exists [], (next :: others). split.
        -- simpl. rewrite <- Hwin. reflexivity.
        -- right. rewrite <- Hwin. split; [exact Hu |].
           constructor; [exact Hlt |].
           rewrite Hrest. destruct Hafter as [-> | [_ Hall]].
           ++ constructor.
           ++ rewrite <- Hwin in Hall. exact Hall.
      * injection Hsplit as Hb Hrest. subst b.
        exists (seed :: next :: before), after. split.
        -- simpl. do 2 f_equal. exact Hrest.
        -- exact Hafter.
    + assert (E : reducer seed next = next)
        by (unfold reducer; rewrite K; reflexivity).
      rewrite E.
      destruct (IH next) as [before [after [Hsplit Hafter]]].
      exists (seed :: before), after. split.
      * simpl. f_equal. exact Hsplit.
      * exact Hafter.
Qed.

(** X4: the current tournament is either the active record the store lists
    last, or an active record without a name whose creation timestamp is
    strictly greater than that of every active record listed after it. *)
Theorem winner_is_last_or_unnamed_and_newer
    (collection : list TournamentDocument) (this : GuildSettings)
    (winner : TournamentDocument) :
  getCurrentTournament collection this = Normal (Some winner) ->
  exists before after,
    activeTournaments collection this = (before ++ winner :: after)%list
    /\ (after = []
        \/ (unnamed winner
            /\ Forall (fun later => creationTime later < creationTime winner)
                 after)).
Proof.
  rewrite getCurrentTournament_unfold.
  destruct (activeTournaments collection this) as [|first rest]; simpl.
  - discriminate.
  - intro H. injection H as <-. apply fold_left_reducer_winner.
Qed.

Lemma winner_is_last_or_unnamed_and_newer_witness :
  exists before after,
    activeTournaments [winter; draft; closed; spring; nameless] guildA
    = (before ++ draft :: after)%list
    /\ (after = []
        \/ (unnamed draft
            /\ Forall (fun later => creationTime later < creationTime draft)
                 after)).
Proof.
  exact (winner_is_last_or_unnamed_and_newer
           [winter; draft; closed; spring; nameless] guildA draft eq_refl).
Defined.

(** X5: a record that is not flagged active, or that belongs to another
    guild, has no influence on the result, wherever the store lists it. *)
Theorem irrelevant_record_is_ignored
    (before after : list TournamentDocument) (x : TournamentDocument)
    (this : GuildSettings) :
  active (toObject x) = false
  \/ guildID (toObject x) <> settings_guildID this ->
  getCurrentTournament (before ++ x :: after) this
  = getCurrentTournament (before ++ after) this.
Proof.
  intro Hx. rewrite !getCurrentTournament_unfold.
  replace (activeTournaments (before ++ x :: after) this)
    with (activeTournaments (before ++ after) this); [reflexivity |].
  rewrite !activeTournaments_app. f_equal.
  change (x :: after) with ([x] ++ after)%list.
  rewrite activeTournaments_app.
  replace (activeTournaments [x] this) with (@nil TournamentDocument);
    [reflexivity |].
  unfold activeTournaments, Array_filter, TournamentModel_find. simpl.
  destruct Hx as [Hx | Hx].
  - destruct (guildID (toObject x) =? settings_guildID this)%string; simpl;
      [rewrite Hx |]; reflexivity.
  - apply String.eqb_neq in Hx. rewrite Hx. reflexivity.
Qed.

Lemma irrelevant_record_is_ignored_witness :
  getCurrentTournament ([winter] ++ closed :: [spring]) guildA
  = getCurrentTournament ([winter] ++ [spring]) guildA
  /\ getCurrentTournament ([winter] ++ elsewhere :: [spring]) guildA
     = getCurrentTournament ([winter] ++ [spring]) guildA.
Proof.
  split.
  - apply (irrelevant_record_is_ignored [winter] [spring] closed guildA).
    left. reflexivity.
  - apply (irrelevant_record_is_ignored [winter] [spring] elsewhere guildA).
    right. discriminate.
Defined.

End Selection.

(** ** Properties of the profile command *)

Section ProfileCommand.
Import Profile.
Import Properties.

(** Case analysis on the collaborators' answers and on the order in which
    promises settle, one after the other. *)
Ltac step := cbn -[Nat.ltb Nat.max Nat.add].

(** Comparisons of turns that the hypotheses decide. *)
Ltac timing :=
  repeat match goal with
         | |- context [(?a <? ?b)%nat] =>
             first
               [ replace (a <? b)%nat with true
                   by (symmetry; apply Nat.ltb_lt; lia)
               | replace (a <? b)%nat with false
                   by (symmetry; apply Nat.ltb_ge; lia) ];
             step
         end.

Ltac answer_cases :=
  repeat match goal with
         | |- context [match ?x with _ => _ end] =>
             match type of x with
             | completion _ => destruct x eqn:?
             | Promise _ => destruct x eqn:?
             | option _ =>
                 lazymatch x with
                 | earliest _ => fail
                 | _ => destruct x eqn:?
                 end
             | bool =>
                 lazymatch x with
                 | Nat.ltb _ _ => destruct x eqn:?
                 | _ => fail
                 end
             end; step
         end.

Ltac run_solver :=
  unfold run, profileSolver, profileSolver_try, try_catch, bind, call, await,
    resolved, ret, throw, firstUnhandled, start; step.

Ltac run_validator :=
  unfold run, profileSlashCommandValidator, try_catch, bind, call, await,
    ret, throw, firstUnhandled, start; step.

(** C2 (as the code behaves): the promise of the member fetch is stored on
    line 96 and awaited on line 110. When it rejects while the solver is
    still suspended at the await of [getOrCreateContestant], nothing
    handles the rejection: the process ends with the member's error and
    the solver returns no outcome. *)
Theorem unhandled_member_rejection_ends_the_process
    (w : World) (params : ProfileSolverParams) (client : Client)
    (guild : Guild) (e : Error) (lookup : Promise Contestant) :
  TournamentionClient_getInstance w = Normal (Fulfilled client) ->
  guilds_fetch w client (guildId params) = Normal (Fulfilled guild) ->
  members_fetch w guild (memberId params) = Normal (Rejected e) ->
  getOrCreateContestant w (guildId params) (memberId params) = Normal lookup ->
  (settlesAfter w (CallMembersFetch guild (memberId params))
   < settlesAfter w
       (CallGetOrCreateContestant (guildId params) (memberId params)))%nat ->
  run (profileSolver w params)
  = (ProcessEnded e,
     [ CallGetInstance;
       CallGuildsFetch client (guildId params);
       CallMembersFetch guild (memberId params);
       CallGetOrCreateContestant (guildId params) (memberId params) ]).
Proof.
  intros Hclient Hguild Hmember Hcontestant Hlate.
  run_solver.
  rewrite Hclient; step. rewrite Hguild; step. rewrite Hmember; step.
  rewrite Hcontestant; step.
  destruct lookup; step; timing; reflexivity.
Qed.

Lemma unhandled_member_rejection_ends_the_process_witness :
  run (profileSolver memberless aliceParams)
  = (ProcessEnded (OtherError "Unknown Member"),
     [ CallGetInstance;
       CallGuildsFetch TournamentionClient_instance "A";
       CallMembersFetch {| guild_id := "A" |} "1001";
       CallGetOrCreateContestant "A" "1001" ]).
Proof.
  apply (unhandled_member_rejection_ends_the_process memberless aliceParams
           TournamentionClient_instance {| guild_id := "A" |}
           (OtherError "Unknown Member") (Fulfilled aliceContestant));
    try reflexivity.
  cbn. lia.
Defined.

(** The solver on sample worlds. *)
Example profileSolver_calm :
  run (profileSolver calm aliceParams)
  = (Completed
       (Normal {| status := SUCCESS_DETAILS;
                  body := DetailsBody (-1) 42
                            {| name := "Alice"; icon := defaultIcon |} |}),
     [ CallGetInstance;
       CallGuildsFetch TournamentionClient_instance "A";
       CallMembersFetch {| guild_id := "A" |} "1001";
       CallGetOrCreateContestant "A" "1001";
       CallGetCareerPoints aliceContestant;
       CallGetCurrentTournament "A" ]).
Proof. reflexivity. Qed.

Example profileSolver_stormy :
  fst (run (profileSolver stormy aliceParams)) = Completed (Normal failUnknown).
Proof. reflexivity. Qed.

(** When the store answers within the turn of each call, the rejection of
    the member promise is still pending where it is awaited, and is
    caught. *)
Example profileSolver_memberlessQuickStore :
  run (profileSolver memberlessQuickStore aliceParams)
  = (Completed (Normal failUnknown),
     [ CallGetInstance;
       CallGuildsFetch TournamentionClient_instance "A";
       CallMembersFetch {| guild_id := "A" |} "1001";
       CallGetOrCreateContestant "A" "1001";
       CallGetCareerPoints aliceContestant;
       CallGetCurrentTournament "A" ])
  /\ leftFloating (profileSolver memberlessQuickStore aliceParams) = [].
Proof. split; reflexivity. Qed.

(** The ways a run of the solver can end: it never throws to its caller. *)
Lemma profileSolver_outcome_cases (w : World) (params : ProfileSolverParams) :
  (exists outcome,
     fst (run (profileSolver w params)) = Completed (Normal outcome)
     /\ (outcome = failUnknown
         \/ exists current career details,
              outcome = {| status := SUCCESS_DETAILS;
                           body := DetailsBody current career details |}))
  \/ exists unhandled,
       fst (run (profileSolver w params)) = ProcessEnded unhandled.
Proof.
  run_solver. answer_cases.
  all: first
         [ right; eexists; reflexivity
         | left; eexists; split; [reflexivity |];
           first [ left; reflexivity | right; do 3 eexists; reflexivity ] ].
Qed.

(** The validator returns an outcome only from its [catch] block. *)
Lemma profileSlashCommandValidator_outcome_cases (w : World)
    (interaction : LimitedCommandInteraction) (o : ProfileOutcome) :
  fst (run (profileSlashCommandValidator w interaction))
  = Completed (Normal (inr o)) ->
  exists constraint field value context,
    o = {| status := FAIL_VALIDATION;
           body := ValidationBody constraint field value context |}.
Proof.
  run_validator.
  destruct (validateConstraints w interaction [] []) as [[[]|e]|e]; step.
  - destruct (options_get interaction "user") as [opt|]; step.
    + destruct (option_user opt); step; [discriminate |].
      destruct (interaction_member interaction); step; discriminate.
    + destruct (interaction_member interaction); step; discriminate.
  - destruct e; step; try discriminate.
    intro H. injection H as <-. do 4 eexists. reflexivity.
  - destruct e; step; try discriminate.
    intro H. injection H as <-. do 4 eexists. reflexivity.
Qed.

(** C10: when every call succeeds and the current-tournament lookup yields
    no tournament, [profileSolver] returns a [SUCCESS_DETAILS] outcome whose
    [currentPoints] is the sentinel -1 and whose [careerPoints] is the value
    the career query gave; the tournament points query is not called. *)
Theorem profileSolver_without_current_tournament
    (w : World) (params : ProfileSolverParams) (client : Client)
    (guild : Guild) (member : GuildMember) (contestant : Contestant)
    (career : Z) :
  TournamentionClient_getInstance w = Normal (Fulfilled client) ->
  guilds_fetch w client (guildId params) = Normal (Fulfilled guild) ->
  members_fetch w guild (memberId params) = Normal (Fulfilled member) ->
  getOrCreateContestant w (guildId params) (memberId params)
  = Normal (Fulfilled contestant) ->
  getCareerPointsOfContestant w contestant = Normal (Fulfilled career) ->
  getCurrentTournament w (guildId params) = Normal (Fulfilled None) ->
  run (profileSolver w params)
  = (Completed
       (Normal {| status := SUCCESS_DETAILS;
                  body := DetailsBody (-1) career
                            {| name := displayName member;
                               icon := match avatarURL (user member) with
                                       | Some url => url
                                       | None => defaultIcon
                                       end |} |}),
     [ CallGetInstance;
       CallGuildsFetch client (guildId params);
       CallMembersFetch guild (memberId params);
       CallGetOrCreateContestant (guildId params) (memberId params);
       CallGetCareerPoints contestant;
       CallGetCurrentTournament (guildId params) ]).
Proof.
  intros Hclient Hguild Hmember Hcontestant Hcareer Hcurrent.
  run_solver.
  rewrite Hclient; step. rewrite Hguild; step. rewrite Hmember; step.
  rewrite Hcontestant; step. rewrite Hcareer; step. rewrite Hcurrent; step.
  reflexivity.
Qed.

Lemma profileSolver_without_current_tournament_witness :
  run (profileSolver calm aliceParams)
  = (Completed
       (Normal {| status := SUCCESS_DETAILS;
                  body := DetailsBody (-1) 42
                            {| name := "Alice"; icon := defaultIcon |} |}),
     [ CallGetInstance;
       CallGuildsFetch TournamentionClient_instance "A";
       CallMembersFetch {| guild_id := "A" |} "1001";
       CallGetOrCreateContestant "A" "1001";
       CallGetCareerPoints aliceContestant;
       CallGetCurrentTournament "A" ]).
Proof.
  apply (profileSolver_without_current_tournament calm aliceParams
           TournamentionClient_instance {| guild_id := "A" |}
           {| displayName := "Alice";
              user := {| user_id := "1001"; avatarURL := None |} |}
           aliceContestant 42); reflexivity.
Defined.

(** C6: when constraint validation raises an [OptionValidationError], the
    validator completes normally with a [FAIL_VALIDATION] outcome whose body
    holds that error's constraint, field, value and message (as context);
    nothing is thrown. *)
Theorem validation_error_becomes_outcome
    (w : World) (interaction : LimitedCommandInteraction)
    (constraint field value message : string) :
  raisedBy (validateConstraints w interaction [] [])
    (OptionValidationError constraint field value message) ->
  run (profileSlashCommandValidator w interaction)
  = (Completed
       (Normal (inr {| status := FAIL_VALIDATION;
                       body := ValidationBody constraint field value message |})),
     [ CallValidateConstraints interaction [] [] ]).
Proof.
  intros [H|H]; run_validator; rewrite H; reflexivity.
Qed.

Lemma validation_error_becomes_outcome_witness :
  run (profileSlashCommandValidator strict plainRequest)
  = (Completed
       (Normal (inr {| status := FAIL_VALIDATION;
                       body := ValidationBody "isMember" "user" "2002"
                                 "not a member" |})),
     [ CallValidateConstraints plainRequest [] [] ]).
Proof.
  apply (validation_error_becomes_outcome strict plainRequest
           "isMember" "user" "2002" "not a member").
  right. reflexivity.
Defined.

(** C8: when constraint validation raises an error that is not an
    [OptionValidationError], the validator throws that same error; no
    outcome is produced. *)
Theorem other_validation_errors_are_rethrown
    (w : World) (interaction : LimitedCommandInteraction) (e : Error) :
  raisedBy (validateConstraints w interaction [] []) e ->
  isOptionValidationError e = false ->
  run (profileSlashCommandValidator w interaction)
  = (Completed (Thrown e), [ CallValidateConstraints interaction [] [] ]).
Proof.
  intros [H|H] He; run_validator; rewrite H; step;
    destruct e; try discriminate He; reflexivity.
Qed.

Lemma other_validation_errors_are_rethrown_witness :
  run (profileSlashCommandValidator broken plainRequest)
  = (Completed (Thrown (OtherError "constraint map corrupted")),
     [ CallValidateConstraints plainRequest [] [] ]).
Proof.
  apply (other_validation_errors_are_rethrown broken plainRequest
           (OtherError "constraint map corrupted")).
  - left. reflexivity.
  - reflexivity.
Defined.

(** Every call of the solver that takes a member id is made with
    [params.memberId]. *)
Lemma profileSolver_member_arguments (w : World) (params : ProfileSolverParams) :
  forall c id,
    In c (snd (run (profileSolver w params))) ->
    memberIdArgument c = Some id ->
    id = memberId params.
Proof.
  run_solver. answer_cases.
  all: intros c id Hin Hid; cbn in Hin.
  all: repeat (destruct Hin as [<-|Hin]; [cbn in Hid; try discriminate Hid |]).
  all: try contradiction.
  all: injection Hid as <-; reflexivity.
Qed.

(** Once the client and the guild are there, the member fetch is made, and
    unless it throws at the call the contestant lookup follows, both with
    [params.memberId]. *)
Lemma profileSolver_member_calls (w : World) (params : ProfileSolverParams)
    (client : Client) (guild : Guild) :
  TournamentionClient_getInstance w = Normal (Fulfilled client) ->
  guilds_fetch w client (guildId params) = Normal (Fulfilled guild) ->
  In (CallMembersFetch guild (memberId params))
    (snd (run (profileSolver w params)))
  /\ ((forall e, members_fetch w guild (memberId params) <> Thrown e) ->
      In (CallGetOrCreateContestant (guildId params) (memberId params))
        (snd (run (profileSolver w params)))).
Proof.
  intros Hclient Hguild. run_solver.
  rewrite Hclient; step. rewrite Hguild; step.
  destruct (members_fetch w guild (memberId params)) as [member|e] eqn:Hm; step.
  - split.
    + answer_cases; cbn; auto 10.
    + intros _. answer_cases; cbn; auto 10.
  - split; [auto 10 |]. intro H. contradiction (H e). reflexivity.
Qed.


(** The validator on an interaction that names no target. *)
Lemma profileSlashCommandValidator_defaults (w : World)
    (interaction : LimitedCommandInteraction) (invoker : GuildMember) :
  validateConstraints w interaction [] [] = Normal (Fulfilled tt) ->
  noTarget interaction ->
  interaction_member interaction = Some invoker ->
  run (profileSlashCommandValidator w interaction)
  = (Completed
       (Normal (inl {| guildId := interaction_guildId interaction;
                       memberId := user_id (user invoker) |})),
     [ CallValidateConstraints interaction [] [] ]).
Proof.
  intros Hvalid Hnone Hmember. run_validator. rewrite Hvalid; step.
  unfold noTarget in Hnone.
  destruct (options_get interaction "user") as [opt|]; step.
  - rewrite (Hnone opt eq_refl); step. rewrite Hmember. reflexivity.
  - rewrite Hmember. reflexivity.
Qed.

(** An explicit target is used instead of the invoking member. *)
Lemma profileSlashCommandValidator_explicit_target (w : World)
    (interaction : LimitedCommandInteraction)
    (opt : CommandInteractionOption) (target : User) :
  validateConstraints w interaction [] [] = Normal (Fulfilled tt) ->
  options_get interaction "user" = Some opt ->
  option_user opt = Some target ->
  fst (run (profileSlashCommandValidator w interaction))
  = Completed
      (Normal (inl {| guildId := interaction_guildId interaction;
                      memberId := user_id target |})).
Proof.
  intros Hvalid Hopt Huser. run_validator. rewrite Hvalid; step.
  rewrite Hopt, Huser. reflexivity.
Qed.

Example profileSlashCommandValidator_targetRequest :
  fst (run (profileSlashCommandValidator calm targetRequest))
  = Completed (Normal (inl {| guildId := "A"; memberId := "2002" |})).
Proof.
  apply (profileSlashCommandValidator_explicit_target calm targetRequest
           {| option_name := "user"; option_user := Some bob |} bob);
    reflexivity.
Qed.

(** Without a target and without an invoking member the dereference of
    [interaction.member] throws. *)
Lemma profileSlashCommandValidator_without_member (w : World)
    (interaction : LimitedCommandInteraction) :
  validateConstraints w interaction [] [] = Normal (Fulfilled tt) ->
  noTarget interaction ->
  interaction_member interaction = None ->
  fst (run (profileSlashCommandValidator w interaction))
  = Completed
      (Thrown (TypeError "Cannot read properties of null (reading 'user')")).
Proof.
  intros Hvalid Hnone Hmember. run_validator. rewrite Hvalid; step.
  unfold noTarget in Hnone.
  destruct (options_get interaction "user") as [opt|]; step.
  - rewrite (Hnone opt eq_refl); step. rewrite Hmember. reflexivity.
  - rewrite Hmember. reflexivity.
Qed.

(** C7: for an interaction that passes validation and names no target (no
    [user] option, or one that carries no user), the validator returns
    params whose [memberId] is the invoking member's id; the solver run on
    these params makes every call that takes a member id with that id, and
    it does make the member fetch and the contestant lookup with it once
    the client and the guild are there. *)
Theorem default_target_is_invoking_member
    (w : World) (interaction : LimitedCommandInteraction)
    (invoker : GuildMember) :
  validateConstraints w interaction [] [] = Normal (Fulfilled tt) ->
  noTarget interaction ->
  interaction_member interaction = Some invoker ->
  exists params,
    fst (run (profileSlashCommandValidator w interaction))
    = Completed (Normal (inl params))
    /\ memberId params = user_id (user invoker)
    /\ guildId params = interaction_guildId interaction
    /\ (forall c id,
          In c (snd (run (profileSolver w params))) ->
          memberIdArgument c = Some id ->
          id = user_id (user invoker))
    /\ (forall client guild,
          TournamentionClient_getInstance w = Normal (Fulfilled client) ->
          guilds_fetch w client (guildId params) = Normal (Fulfilled guild) ->
          In (CallMembersFetch guild (user_id (user invoker)))
            (snd (run (profileSolver w params)))
          /\ ((forall e, members_fetch w guild (memberId params) <> Thrown e) ->
              In (CallGetOrCreateContestant (interaction_guildId interaction)
                    (user_id (user invoker)))
                (snd (run (profileSolver w params))))).
Proof.
  intros Hvalid Hnone Hmember.
  exists {| guildId := interaction_guildId interaction;
            memberId := user_id (user invoker) |}.
  split; [| split; [reflexivity | split; [reflexivity | split]]].
  - rewrite (profileSlashCommandValidator_defaults w interaction invoker
               Hvalid Hnone Hmember). reflexivity.
  - intros c id Hin Hid.
    apply (profileSolver_member_arguments w _ c id Hin Hid).
  - intros client guild Hclient Hguild.
    apply (profileSolver_member_calls w _ client guild Hclient Hguild).
Qed.

Lemma noTarget_plainRequest : noTarget plainRequest.
Proof. intros o H. discriminate H. Qed.

Lemma noTarget_emptyTargetRequest : noTarget emptyTargetRequest.
Proof. intros o H. injection H as <-. reflexivity. Qed.

Lemma default_target_is_invoking_member_witness :
  exists params,
    fst (run (profileSlashCommandValidator calm emptyTargetRequest))
    = Completed (Normal (inl params))
    /\ memberId params = "1001"
    /\ guildId params = "A"
    /\ (forall c id,
          In c (snd (run (profileSolver calm params))) ->
          memberIdArgument c = Some id ->
          id = "1001")
    /\ (forall client guild,
          TournamentionClient_getInstance calm = Normal (Fulfilled client) ->
          guilds_fetch calm client (guildId params) = Normal (Fulfilled guild) ->
          In (CallMembersFetch guild "1001")
            (snd (run (profileSolver calm params)))
          /\ ((forall e, members_fetch calm guild (memberId params) <> Thrown e) ->
              In (CallGetOrCreateContestant "A" "1001")
                (snd (run (profileSolver calm params))))).
Proof.
  exact (default_target_is_invoking_member calm emptyTargetRequest alice
           eq_refl noTarget_emptyTargetRequest eq_refl).
Defined.

(** The cast in the renderer is unchecked: on an outcome whose body does not
    have the shape its status declares, rendering throws before the embed
    builder is given anything. *)
Example describeSuccessDetails_ill_shaped (r : Rendering) :
  wellShaped {| status := SUCCESS_DETAILS; body := EmptyBody |} = false
  /\ describeSuccessDetails r {| status := SUCCESS_DETAILS; body := EmptyBody |}
     = Thrown (TypeError "Cannot read properties of undefined (reading 'name')").
Proof. split; reflexivity. Qed.

Example describeSuccessDetails_calm :
  describeSuccessDetails lenient
    {| status := SUCCESS_DETAILS;
       body := DetailsBody (-1) 42 {| name := "Alice"; icon := defaultIcon |} |}
  = Normal
      {| embeds :=
           [ {| title := "Alice's Profile";
                description :=
                  "**Current Points:** -1" ++ newline ++ "**Career Points:** 42";
                thumbnail := defaultIcon |} ];
         ephemeral := true |}.
Proof. reflexivity. Qed.

(** A well-shaped outcome can still be refused by the embed builder. *)
Example describeSuccessDetails_refused :
  describeSuccessDetails wary
    {| status := SUCCESS_DETAILS;
       body := DetailsBody (-1) 42 {| name := "Alice"; icon := "" |} |}
  = Thrown (OtherError "Invalid URL").
Proof. reflexivity. Qed.

(** C9: every outcome that the solver or the validator of the profile
    command returns has the body its status declares: [SUCCESS_DETAILS]
    comes with the points-and-user-details body, [FAIL_UNKNOWN] with the
    empty body, [FAIL_VALIDATION] with the constraint, field, value and
    context body. So the renderer registered under the outcome's status, if
    there is one, finds every property it reads: what it returns or throws
    is what the embed builder answers for the title, description and
    thumbnail taken from that body. *)
Theorem produced_outcomes_are_well_shaped (w : World) (o : ProfileOutcome) :
  producedBy w o ->
  wellShaped o = true
  /\ (status o = SUCCESS_DETAILS ->
      exists current career details,
        body o = DetailsBody current career details)
  /\ (status o = FAIL_UNKNOWN -> body o = EmptyBody)
  /\ (status o = FAIL_VALIDATION ->
      exists constraint field value context,
        body o = ValidationBody constraint field value context)
  /\ (forall r render,
        descriptions_get r (status o) = Some render ->
        exists current career details,
          body o = DetailsBody current career details
          /\ render o
             = buildReply r
                 (name details ++ "'s Profile")
                 ("**Current Points:** " ++ Number_toString r current
                  ++ newline
                  ++ "**Career Points:** " ++ Number_toString r career)
                 (icon details)).
Proof.
  intros [[params Hsolver] | [interaction Hvalidator]].
  - destruct (profileSolver_outcome_cases w params)
      as [[o' [Hrun Hcases]] | [unhandled Hrun]];
      rewrite Hrun in Hsolver; [| discriminate Hsolver].
    injection Hsolver as <-.
    destruct Hcases as [-> | [current [career [details ->]]]]; cbn.
    + split; [reflexivity | split; [| split; [| split]]].
      * discriminate.
      * reflexivity.
      * discriminate.
      * intros r render H. discriminate H.
    + split; [reflexivity | split; [| split; [| split]]].
      * intros _. do 3 eexists. reflexivity.
      * discriminate.
      * discriminate.
      * intros r render H. injection H as <-.
        do 3 eexists. split; reflexivity.
  - destruct (profileSlashCommandValidator_outcome_cases w interaction o Hvalidator)
      as [c [f [v [m ->]]]]; cbn.
    split; [reflexivity | split; [| split; [| split]]].
    + discriminate.
    + discriminate.
    + intros _. do 4 eexists. reflexivity.
    + intros r render H. discriminate H.
Qed.

Lemma produced_outcomes_are_well_shaped_witness :
  (wellShaped {| status := SUCCESS_DETAILS;
                 body := DetailsBody (-1) 42
                           {| name := "Alice"; icon := defaultIcon |} |} = true
   /\ forall r render,
        descriptions_get r SUCCESS_DETAILS = Some render ->
        exists current career details,
          DetailsBody (-1) 42 {| name := "Alice"; icon := defaultIcon |}
          = DetailsBody current career details
          /\ render {| status := SUCCESS_DETAILS;
                       body := DetailsBody (-1) 42
                                 {| name := "Alice"; icon := defaultIcon |} |}
             = buildReply r
                 (name details ++ "'s Profile")
                 ("**Current Points:** " ++ Number_toString r current
                  ++ newline
                  ++ "**Career Points:** " ++ Number_toString r career)
                 (icon details))
  /\ wellShaped failUnknown = true
  /\ wellShaped {| status := FAIL_VALIDATION;
                   body := ValidationBody "isMember" "user" "2002"
                             "not a member" |} = true.
Proof.
  split; [| split].
  - destruct (produced_outcomes_are_well_shaped calm
                {| status := SUCCESS_DETAILS;
                   body := DetailsBody (-1) 42
                             {| name := "Alice"; icon := defaultIcon |} |}
                (or_introl (ex_intro _ aliceParams eq_refl)))
      as [Hshape [_ [_ [_ Hrender]]]].
    split; [exact Hshape | exact Hrender].
  - exact (proj1 (produced_outcomes_are_well_shaped stormy failUnknown
                    (or_introl (ex_intro _ aliceParams eq_refl)))).
  - exact (proj1 (produced_outcomes_are_well_shaped strict _
                    (or_intror (ex_intro _ plainRequest eq_refl)))).
Defined.


(** *** Further properties of the solver *)

(** X6: when every call succeeds and the guild has a current tournament,
    [profileSolver] returns [SUCCESS_DETAILS] with the points the store
    gives for the contestant in that tournament, the career points, the
    member's display name and the avatar or the default icon; the seven
    calls are made in the order of the source. *)
Theorem profileSolver_with_current_tournament
    (w : World) (params : ProfileSolverParams) (client : Client)
    (guild : Guild) (member : GuildMember) (contestant : Contestant)
    (career current : Z) (tournament : Schema.TournamentDocument) :
  TournamentionClient_getInstance w = Normal (Fulfilled client) ->
  guilds_fetch w client (guildId params) = Normal (Fulfilled guild) ->
  members_fetch w guild (memberId params) = Normal (Fulfilled member) ->
  getOrCreateContestant w (guildId params) (memberId params)
  = Normal (Fulfilled contestant) ->
  getCareerPointsOfContestant w contestant = Normal (Fulfilled career) ->
  getCurrentTournament w (guildId params)
  = Normal (Fulfilled (Some tournament)) ->
  getPointsOfContestantForTournament w contestant tournament
  = Normal (Fulfilled current) ->
  run (profileSolver w params)
  = (Completed
       (Normal {| status := SUCCESS_DETAILS;
                  body := DetailsBody current career
                            {| name := displayName member;
                               icon := match avatarURL (user member) with
                                       | Some url => url
                                       | None => defaultIcon
                                       end |} |}),
     [ CallGetInstance;
       CallGuildsFetch client (guildId params);
       CallMembersFetch guild (memberId params);
       CallGetOrCreateContestant (guildId params) (memberId params);
       CallGetCareerPoints contestant;
       CallGetCurrentTournament (guildId params);
       CallGetPointsForTournament contestant tournament ]).
Proof.
  intros Hclient Hguild Hmember Hcontestant Hcareer Hcurrent Hpoints.
  run_solver.
  rewrite Hclient; step. rewrite Hguild; step. rewrite Hmember; step.
  rewrite Hcontestant; step. rewrite Hcareer; step. rewrite Hcurrent; step.
  rewrite Hpoints; step. reflexivity.
Qed.

Lemma profileSolver_with_current_tournament_witness :
  run (profileSolver busy aliceParams)
  = (Completed
       (Normal {| status := SUCCESS_DETAILS;
                  body := DetailsBody 7 42
                            {| name := "Alice"; icon := defaultIcon |} |}),
     [ CallGetInstance;
       CallGuildsFetch TournamentionClient_instance "A";
       CallMembersFetch {| guild_id := "A" |} "1001";
       CallGetOrCreateContestant "A" "1001";
       CallGetCareerPoints aliceContestant;
       CallGetCurrentTournament "A";
       CallGetPointsForTournament aliceContestant Schema.spring ]).
Proof.
  apply (profileSolver_with_current_tournament busy aliceParams
           TournamentionClient_instance {| guild_id := "A" |}
           {| displayName := "Alice";
              user := {| user_id := "1001"; avatarURL := None |} |}
           aliceContestant 42 7 Schema.spring); reflexivity.
Defined.

(** X7: every call the solver makes is justified by its parameters and by
    the answers it got before: guild and member ids are those of [params],
    the member is fetched from the guild that [guilds.fetch] gave, both
    points queries get the contestant that [getOrCreateContestant] gave,
    the tournament points are asked for the tournament that the lookup
    gave, and [validateConstraints] is never called. *)
Theorem profileSolver_calls_are_justified
    (w : World) (params : ProfileSolverParams) (c : Call) :
  In c (snd (run (profileSolver w params))) -> callJustified w params c.
Proof.
  run_solver. answer_cases.
  all: subst.
  all: intro Hin; cbn in Hin.
  all: repeat (destruct Hin as [<-|Hin]; [cbn; eauto 6 |]).
  all: contradiction.
Qed.

Lemma profileSolver_calls_are_justified_witness :
  callJustified busy aliceParams
    (CallGetPointsForTournament aliceContestant Schema.spring).
Proof.
  apply (profileSolver_calls_are_justified busy aliceParams).
  vm_compute. auto 10.
Defined.



(** X9: when the client or the guild cannot be obtained, the outcome is
    [FAIL_UNKNOWN] and the solver has made no call to the store and no
    call that takes a member id. *)
Theorem no_store_call_without_guild
    (w : World) (params : ProfileSolverParams) :
  raises (TournamentionClient_getInstance w) = true
  \/ (exists client,
        TournamentionClient_getInstance w = Normal (Fulfilled client)
        /\ raises (guilds_fetch w client (guildId params)) = true) ->
  fst (run (profileSolver w params)) = Completed (Normal failUnknown)
  /\ forall c,
       In c (snd (run (profileSolver w params))) ->
       isStoreCall c = false /\ memberIdArgument c = None.
Proof.
  intros [Hnone | [client [Hclient Hguild]]]; run_solver.
  - destruct (TournamentionClient_getInstance w) as [[client|e]|e]; step;
      try discriminate Hnone.
    all: split; [reflexivity |].
    all: intros c [<-|[]]; split; reflexivity.
  - rewrite Hclient; step.
    destruct (guilds_fetch w client (guildId params)) as [[guild|e]|e]; step;
      try discriminate Hguild.
    all: split; [reflexivity |].
    all: intros c [<-|[<-|[]]]; split; reflexivity.
Qed.

Lemma no_store_call_without_guild_witness :
  fst (run (profileSolver offline aliceParams))
  = Completed (Normal failUnknown)
  /\ forall c,
       In c (snd (run (profileSolver offline aliceParams))) ->
       isStoreCall c = false /\ memberIdArgument c = None.
Proof.
  apply (no_store_call_without_guild offline aliceParams).
  right. exists TournamentionClient_instance. split; reflexivity.
Defined.

(** *** Further properties of the validator and of the description *)

(** X10: when the [user] option carries a user, the validator returns that
    user's id as [memberId] and the interaction's guild id as [guildId],
    after the one call to [validateConstraints]; the invoking member is not
    read, so this holds for an interaction without one as well. *)
Theorem explicit_target_overrides_invoker
    (w : World) (interaction : LimitedCommandInteraction)
    (opt : CommandInteractionOption) (target : User) :
  validateConstraints w interaction [] [] = Normal (Fulfilled tt) ->
  options_get interaction "user" = Some opt ->
  option_user opt = Some target ->
  run (profileSlashCommandValidator w interaction)
  = (Completed
       (Normal (inl {| guildId := interaction_guildId interaction;
                       memberId := user_id target |})),
     [ CallValidateConstraints interaction [] [] ]).
Proof.
  intros Hvalid Hopt Huser. run_validator. rewrite Hvalid; step.
  rewrite Hopt, Huser. reflexivity.
Qed.

Lemma explicit_target_overrides_invoker_witness :
  interaction_member memberlessTargetRequest = None
  /\ run (profileSlashCommandValidator calm memberlessTargetRequest)
     = (Completed (Normal (inl {| guildId := "A"; memberId := "2002" |})),
        [ CallValidateConstraints memberlessTargetRequest [] [] ]).
Proof.
  split; [reflexivity |].
  apply (explicit_target_overrides_invoker calm memberlessTargetRequest
           {| option_name := "user"; option_user := Some bob |} bob);
    reflexivity.
Defined.

(** X11: when validation passes, no target is named and the interaction has
    no invoking member, the validator throws a [TypeError] (the read of
    [member.user] behind the non-null assertion); it returns neither params
    nor an outcome. *)
Theorem missing_member_throws_TypeError
    (w : World) (interaction : LimitedCommandInteraction) :
  validateConstraints w interaction [] [] = Normal (Fulfilled tt) ->
  noTarget interaction ->
  interaction_member interaction = None ->
  exists message,
    run (profileSlashCommandValidator w interaction)
    = (Completed (Thrown (TypeError message)),
       [ CallValidateConstraints interaction [] [] ]).
Proof.
  intros Hvalid Hnone Hmember. run_validator. rewrite Hvalid; step.
  unfold noTarget in Hnone.
  destruct (options_get interaction "user") as [opt|]; step.
  - rewrite (Hnone opt eq_refl); step. rewrite Hmember.
    eexists. reflexivity.
  - rewrite Hmember. eexists. reflexivity.
Qed.

Lemma noTarget_memberlessRequest : noTarget memberlessRequest.
Proof. intros o H. discriminate H. Qed.

Lemma missing_member_throws_TypeError_witness :
  exists message,
    run (profileSlashCommandValidator calm memberlessRequest)
    = (Completed (Thrown (TypeError message)),
       [ CallValidateConstraints memberlessRequest [] [] ]).
Proof.
  exact (missing_member_throws_TypeError calm memberlessRequest
           eq_refl noTarget_memberlessRequest eq_refl).
Defined.

(** X12: whatever the collaborators answer and whatever the interaction,
    the validator makes exactly one call: [validateConstraints] on the
    interaction with two empty constraint maps. *)
Theorem validator_calls_validateConstraints_once
    (w : World) (interaction : LimitedCommandInteraction) :
  snd (run (profileSlashCommandValidator w interaction))
  = [ CallValidateConstraints interaction [] [] ].
Proof.
  run_validator.
  destruct (validateConstraints w interaction [] []) as [[[]|e]|e]; step.
  - destruct (options_get interaction "user") as [opt|]; step.
    + destruct (option_user opt); cbn; [reflexivity |].
      destruct (interaction_member interaction); reflexivity.
    + destruct (interaction_member interaction); reflexivity.
  - destruct e; reflexivity.
  - destruct e; reflexivity.
Qed.

(** X13: for a guild without a current tournament, the renderer registered
    for the solver's outcome gives the embed builder the member's name
    followed by ['s Profile] as title, a description that prints the
    sentinel -1 as current points and then the career points, and the
    avatar or the default icon as thumbnail; its result is the builder's
    answer for these three. *)
Theorem profile_without_tournament_shows_minus_one
    (w : World) (r : Rendering) (params : ProfileSolverParams)
    (client : Client) (guild : Guild) (member : GuildMember)
    (contestant : Contestant) (career : Z) :
  TournamentionClient_getInstance w = Normal (Fulfilled client) ->
  guilds_fetch w client (guildId params) = Normal (Fulfilled guild) ->
  members_fetch w guild (memberId params) = Normal (Fulfilled member) ->
  getOrCreateContestant w (guildId params) (memberId params)
  = Normal (Fulfilled contestant) ->
  getCareerPointsOfContestant w contestant = Normal (Fulfilled career) ->
  getCurrentTournament w (guildId params) = Normal (Fulfilled None) ->
  exists outcome render,
    fst (run (profileSolver w params)) = Completed (Normal outcome)
    /\ descriptions_get r (status outcome) = Some render
    /\ render outcome
       = buildReply r
           (displayName member ++ "'s Profile")
           ("**Current Points:** " ++ Number_toString r (-1)
            ++ newline
            ++ "**Career Points:** " ++ Number_toString r career)
           (match avatarURL (user member) with
            | Some url => url
            | None => defaultIcon
            end).
Proof.
  intros Hclient Hguild Hmember Hcontestant Hcareer Hcurrent.
  run_solver.
  rewrite Hclient; step. rewrite Hguild; step. rewrite Hmember; step.
  rewrite Hcontestant; step. rewrite Hcareer; step. rewrite Hcurrent; step.
  eexists. exists (describeSuccessDetails r).
  split; [reflexivity | split; reflexivity].
Qed.

Lemma profile_without_tournament_shows_minus_one_witness :
  exists outcome render,
    fst (run (profileSolver calm aliceParams)) = Completed (Normal outcome)
    /\ descriptions_get lenient (status outcome) = Some render
    /\ render outcome
       = Normal
           {| embeds :=
                [ {| title := "Alice's Profile";
                     description :=
                       "**Current Points:** -1" ++ newline
                       ++ "**Career Points:** 42";
                     thumbnail := defaultIcon |} ];
              ephemeral := true |}.
Proof.
  exact (profile_without_tournament_shows_minus_one calm lenient aliceParams
           TournamentionClient_instance {| guild_id := "A" |}
           {| displayName := "Alice";
              user := {| user_id := "1001"; avatarURL := None |} |}
           aliceContestant 42 eq_refl eq_refl eq_refl eq_refl eq_refl eq_refl).
Defined.

(** X14: when neither the member fetch nor the career points query returns
    a promise that rejects, every exception is converted: the solver
    returns [FAIL_UNKNOWN] with an empty body if any call it made raised
    (threw, or returned a promise that rejected), and otherwise the
    [SUCCESS_DETAILS] outcome of its [try] block; the process does not end
    and no rejection is left floating. *)
Theorem profileSolver_converts_awaited_exceptions
    (w : World) (params : ProfileSolverParams) :
  lateAwaitedHold w ->
  exists outcome,
    fst (run (profileSolver w params)) = Completed (Normal outcome)
    /\ (if existsb (callRaises w) (snd (run (profileSolver w params)))
        then outcome = {| status := FAIL_UNKNOWN; body := EmptyBody |}
        else status outcome = SUCCESS_DETAILS
             /\ fst (run (profileSolver_try w params))
                = Completed (Normal outcome))
    /\ leftFloating (profileSolver w params) = [].
Proof.
  intros [Hmember Hcareer].
  unfold leftFloating. run_solver.
  answer_cases.
  all: subst.
  all: try match goal with
           | H : members_fetch _ _ _ = Normal (Rejected _) |- _ =>
               exfalso; exact (Hmember _ _ _ H)
           | H : getCareerPointsOfContestant _ _ = Normal (Rejected _) |- _ =>
               exfalso; exact (Hcareer _ _ H)
           end.
  all: eexists; split; [reflexivity |].
  all: repeat match goal with
              | H : _ = Normal _ |- _ => rewrite H; clear H
              | H : _ = Thrown _ |- _ => rewrite H; clear H
              end.
  all: step; repeat split; reflexivity.
Qed.

Lemma lateAwaitedHold_stormy : lateAwaitedHold stormy.
Proof. split; intros; discriminate. Qed.

Lemma profileSolver_converts_awaited_exceptions_witness :
  exists outcome,
    fst (run (profileSolver stormy aliceParams)) = Completed (Normal outcome)
    /\ (if existsb (callRaises stormy)
             (snd (run (profileSolver stormy aliceParams)))
        then outcome = {| status := FAIL_UNKNOWN; body := EmptyBody |}
        else status outcome = SUCCESS_DETAILS
             /\ fst (run (profileSolver_try stormy aliceParams))
                = Completed (Normal outcome))
    /\ leftFloating (profileSolver stormy aliceParams) = [].
Proof.
  exact (profileSolver_converts_awaited_exceptions stormy aliceParams
           lateAwaitedHold_stormy).
Defined.

End ProfileCommand.
